(** * The managed-object wrapper [V<T, region_type, Base>] of the Verona runtime

    A shallow embedding of [src/rt/cpp/vobject.h].  The header is a class
    template: most of what it does happens during template instantiation
    (capability detection, descriptor synthesis, static assertions, deleted
    functions), and the rest is a handful of allocation entry points that call
    into the region, allocator and scheduler code.

    - Template instantiation is embedded as total functions into
      [CompileResult]: either the instantiated entity or a compile error.
    - The run-time bodies are embedded as programs over the calls they make
      into code outside the header ([prog]), run against an arbitrary handler
      that stands for that code. *)

From Stdlib Require Import List String Bool Arith NArith Lia.
Import ListNotations.
Open Scope string_scope.
Open Scope list_scope.

Set Implicit Arguments.

(** ** Outcome of compiling an entity *)

Inductive CompileResult (A : Type) : Type :=
| Ok (a : A)
| CompileError (msg : string).

Arguments Ok {A} a.
Arguments CompileError {A} msg.

Definition compiles {A} (r : CompileResult A) : bool :=
  match r with
  | Ok _ => true
  | CompileError _ => false
  end.

Definition and_then {A B} (r : CompileResult A) (k : A -> CompileResult B)
  : CompileResult B :=
  match r with
  | Ok a => k a
  | CompileError msg => CompileError msg
  end.

(** ** Values

    Pointers ([Object*], [Alloc*], [void*]) and references to an
    [ObjectStack] are addresses; [nullptr] for a function pointer is [None]
    (see [Descriptor]).  An [EpochMark] is an opaque enumerator value. *)

Definition ptr := N.
Definition EpochMark := N.

(** ** Classes as template arguments *)

(** Types that occur in the parameter lists the header cares about. *)
Inductive CType : Type :=
| TObjectPtr        (* Object*       *)
| TObjectStackRef   (* ObjectStack&  *)
| TAllocPtr         (* Alloc*        *)
| TVoidPtr          (* void*         *)
| TSizeT            (* size_t        *)
| TOther (name : string).

Definition CType_eqb (a b : CType) : bool :=
  match a, b with
  | TObjectPtr, TObjectPtr => true
  | TObjectStackRef, TObjectStackRef => true
  | TAllocPtr, TAllocPtr => true
  | TVoidPtr, TVoidPtr => true
  | TSizeT, TSizeT => true
  | TOther x, TOther y => String.eqb x y
  | _, _ => false
  end.

(** An argument of type [from] can initialise a parameter of type [to]:
    identical types, or an object pointer decaying to [void*].  The types are
    taken literally, without qualifiers; a class whose parameters need any
    other implicit conversion, a default argument or an ellipsis is outside
    the classes described here. *)
Definition convertible (from to : CType) : bool :=
  CType_eqb from to ||
  match from, to with
  | TObjectPtr, TVoidPtr | TAllocPtr, TVoidPtr => true
  | _, _ => false
  end.

Fixpoint accepts (params args : list CType) : bool :=
  match params, args with
  | [], [] => true
  | p :: ps, a :: rest => convertible a p && accepts ps rest
  | _, _ => false
  end.

Inductive Access : Type := Public | Protected | Private.

Inductive MemberKind : Type :=
| MemberFunction (params : list CType)   (* static or not; one declaration *)
| DeletedFunction (params : list CType)  (* declared = delete *)
| MemberFunctionTemplate
| DataMember                             (* an object with an address *)
| BitFieldOrReference                    (* a data member without one *)
| MemberType.                            (* nested class, enum or alias *)

Record Member : Type := {
  m_name : string;
  m_access : Access;
  m_kind : MemberKind
}.

(** The class [T] a user hands to [V].  [members] are the declarations of
    [T] itself, one entry per declaration, so an overloaded function is two
    entries of one name.  [DataMember] is a member object that cannot be
    called.  [vsizeof] is the value of [vsizeof<T>] and
    [is_trivially_destructible] that of [std::is_trivially_destructible_v<T>];
    both are computed outside this header.  Members that [T] inherits from
    [Object] or [Cown] are declared outside this header as well and are not
    part of the record.  The destructor of [T] is taken to be public and not
    deleted, so that [gc_destructor] can name it. *)
Record Class : Type := {
  c_name : string;
  members : list Member;
  sizeof : N;
  vsizeof : N;
  is_trivially_destructible : bool
}.

Definition named (name : string) (m : Member) : bool :=
  String.eqb (m_name m) name.

(** The declarations name lookup of [T::name] finds among [T]'s own. *)
Definition lookup (T : Class) (name : string) : list Member :=
  filter (named name) (members T).

(** "[T] declares a member named [name]". *)
Definition declares (T : Class) (name : string) : Prop :=
  exists m, In m (members T) /\ m_name m = name.

Definition is_public (m : Member) : bool :=
  match m_access m with
  | Public => true
  | _ => false
  end.

(** ** Capability introspection (lines 23-41)

    [has_notified<T>] and [has_finaliser<T>] pick the [std::true_type]
    specialisation exactly when [decltype(&T::name)] is well formed at
    namespace scope.  Substitution fails, and the primary [std::false_type]
    template is used, when
    - lookup finds nothing;
    - the name denotes an overload set or a function template, since
      [&T::name] has no target type to select one function;
    - the name denotes a type, a deleted function, a bit-field or a
      reference member;
    - the member is not accessible from namespace scope (access checking is
      part of substitution).
    The parameter list of a function found this way is never inspected. *)

Definition has_address (m : Member) : bool :=
  match m_kind m with
  | MemberFunction _ => true
  | DataMember => true
  | DeletedFunction _ => false
  | BitFieldOrReference => false
  | MemberFunctionTemplate => false
  | MemberType => false
  end.

Definition address_of_member (T : Class) (name : string) : CompileResult Member :=
  match lookup T name with
  | [] => CompileError "no member of that name"
  | [m] =>
      if negb (has_address m) then
        CompileError "name does not denote a single function or object"
      else if negb (is_public m) then
        CompileError "member is inaccessible"
      else Ok m
  | _ :: _ :: _ => CompileError "address of overloaded function is ambiguous"
  end.

Definition has_notified (T : Class) : bool :=
  compiles (address_of_member T "notified").

Definition has_finaliser (T : Class) : bool :=
  compiles (address_of_member T "finaliser").

Definition has_destructor (T : Class) : bool :=
  negb (is_trivially_destructible T).

(** ** Template arguments of [V] *)

(** [enum class RegionType] is declared in the region headers; the header
    names the enumerators [Trace], [Arena] and [Cown].  [Other] stands for
    any further value of the enumeration. *)
Module RegionType.
Inductive t : Type := Trace | Arena | Cown | Other (n : nat).

Definition eqb (a b : t) : bool :=
  match a, b with
  | Trace, Trace | Arena, Arena | Cown, Cown => true
  | Other n, Other m => Nat.eqb n m
  | _, _ => false
  end.
End RegionType.

(** The class used as [Base]: the runtime's [Object], its [Cown], or some
    other class. *)
Inductive BaseClass : Type :=
| Object
| Cown
| OtherBase (name : string).

(** [std::is_same_v<A, B>] on base classes. *)
Definition is_same_v (A B : BaseClass) : bool :=
  match A, B with
  | Object, Object => true
  | Cown, Cown => true
  | OtherBase x, OtherBase y => String.eqb x y
  | _, _ => false
  end.

(** [RegionType_to_class<region_type>::T], the class that implements a
    region kind; the mapping lives in the region headers. *)
Inductive region_class : Type :=
| RegionType_to_class (region_type : RegionType.t).

(** ** Function pointers and the descriptor

    A function pointer is the identity of the function it points to, and
    [&desc] the identity of one instantiation's static member. *)

Inductive FnPtr : Type :=
| Fn_gc_trace (T : Class) (region_type : RegionType.t) (Base : BaseClass)
| Fn_gc_final (T : Class) (region_type : RegionType.t) (Base : BaseClass)
| Fn_gc_notified (T : Class) (region_type : RegionType.t) (Base : BaseClass)
| Fn_gc_destructor (T : Class) (region_type : RegionType.t) (Base : BaseClass).

Inductive DescriptorPtr : Type :=
| Addr_desc (T : Class) (region_type : RegionType.t) (Base : BaseClass).

(** [struct Descriptor], in the order the header's aggregate initialiser
    fills it.  [None] is [nullptr]. *)
Module Descriptor.
Record t : Type := {
  size : N;
  trace : option FnPtr;
  finaliser : option FnPtr;
  notified : option FnPtr;
  destructor : option FnPtr
}.
End Descriptor.

(** ** Programs over the surrounding runtime

    The bodies in the header only call out: to the thread's allocator, to a
    region class, to [Object::register_object], to the scheduler and to the
    members of [T].  A program is the tree of those calls. *)

Inductive call : Type :=
| ThreadAlloc_get
| Alloc_alloc (alloc : ptr) (size : N)
| Region_create (R : region_class) (alloc : ptr) (size : N) (desc : DescriptorPtr)
| Region_alloc (R : region_class) (alloc : ptr) (region : ptr) (size : N)
    (desc : DescriptorPtr)
| Object_register_object (p : ptr) (desc : DescriptorPtr)
| Scheduler_alloc_epoch
| Member_call (T : Class) (m : Member) (this : ptr) (args : list ptr)
| Destructor_call (T : Class) (this : ptr).

Inductive prog (A : Type) : Type :=
| Ret (a : A)
| Call (c : call) (k : ptr -> prog A).

Arguments Ret {A} a.
Arguments Call {A} c k.

Fixpoint bind {A B} (p : prog A) (f : A -> prog B) : prog B :=
  match p with
  | Ret a => f a
  | Call c k => Call c (fun r => bind (k r) f)
  end.

Definition perform (c : call) : prog ptr := Call c (fun r => Ret r).

Notation "x <- p ;; q" := (bind p (fun x => q))
  (at level 61, p at next level, right associativity).
Notation "p ;;; q" := (bind p (fun _ => q))
  (at level 61, right associativity).

(** Running a program against the surrounding runtime, given as a handler
    over some state; the log records every call with its answer. *)
Section Run.
Variable World : Type.
Variable handler : call -> World -> ptr * World.

Fixpoint run {A} (p : prog A) (w : World) : A * World * list (call * ptr) :=
  match p with
  | Ret a => (a, w, [])
  | Call c k =>
      let (r, w1) := handler c w in
      match run (k r) w1 with
      | (a, w2, log) => (a, w2, (c, r) :: log)
      end
  end.

Definition log_of {A} (p : prog A) (w : World) : list (call * ptr) := snd (run p w).
End Run.

Definition is_epoch_query (c : call) : bool :=
  match c with
  | Scheduler_alloc_epoch => true
  | _ => false
  end.

Definition queries_epoch (log : list (call * ptr)) : bool :=
  existsb (fun e => is_epoch_query (fst e)) log.

(** The calls into the allocator, the region classes and the object
    registry. *)
Definition allocation_call (c : call) : bool :=
  match c with
  | ThreadAlloc_get | Alloc_alloc _ _ | Region_create _ _ _ _
  | Region_alloc _ _ _ _ _ | Object_register_object _ _ => true
  | _ => false
  end.

(** ** Calling a member of [T] from inside [V]

    A call [name(args)] on the object pointer cast to [T], written inside a
    member function of [V<T, ...>], where [T]
    derives from that [V].  A declaration in [T] hides the base's; the callee
    is the one declaration whose parameters take the arguments, and it has to
    be public because [V] is no friend of [T].  When [T] declares nothing of
    that name the lookup continues in [V] itself, whose only member with one
    of the names used below is the private [trace(ObjectStack&)] of line 89,
    accessible here because the call is written inside [V].  The cast keeps
    the address. *)

Inductive Callee : Type :=
| T_member (m : Member)
| V_trace.

Definition callable_with (args : list CType) (m : Member) : bool :=
  match m_kind m with
  | MemberFunction params => accepts params args
  | _ => false
  end.

Definition resolve_call (T : Class) (name : string) (args : list CType)
  : CompileResult Callee :=
  match lookup T name with
  | [] =>
      if String.eqb name "trace" && accepts [TObjectStackRef] args
      then Ok V_trace
      else CompileError "no matching member function for call"
  | found =>
      match filter (callable_with args) found with
      | [] => CompileError "no matching member function for call"
      | [m] =>
          if is_public m then Ok (T_member m)
          else CompileError "member is inaccessible"
      | _ :: _ :: _ => CompileError "call is ambiguous"
      end
  end.

Definition static_assert (cond : bool) (msg : string) : CompileResult unit :=
  if cond then Ok tt else CompileError msg.

(** ** The class template [V] (lines 43-169) *)

Section V.
Variable T : Class.
Variable region_type : RegionType.t.
Variable Base : BaseClass.

(** The two class-scope assertions, lines 50-56; [Ok tt] when the
    specialisation [V<T, region_type, Base>] can be instantiated.  Neither
    assertion mentions [T], so [V] is a function of the other two
    arguments. *)
Definition V : CompileResult unit :=
  and_then
    (static_assert
       (if is_same_v Base Object
        then RegionType.eqb region_type RegionType.Trace
             || RegionType.eqb region_type RegionType.Arena
        else RegionType.eqb region_type RegionType.Cown)
       "static assertion failed")
    (fun _ =>
       static_assert (is_same_v Base Object || is_same_v Base Cown)
         "V base must be Object or Cown").

Definition RegionClass : region_class := RegionType_to_class region_type.

(** Line 89: [void trace(ObjectStack&) {}]. *)
Definition trace (st : ptr) : prog unit := Ret tt.

Definition call_member (callee : Callee) (this : ptr) (args : list ptr)
  : prog unit :=
  match callee with
  | T_member m => Call (Member_call T m this args) (fun _ => Ret tt)
  | V_trace => trace (hd 0%N args)
  end.

(** Lines 60-80: the trampolines.  Each is the compiled function, or the
    error its instantiation raises. *)
Definition gc_trace : CompileResult (ptr -> ptr -> prog unit) :=
  and_then (resolve_call T "trace" [TObjectStackRef])
    (fun callee => Ok (fun o st => call_member callee o [st])).

Definition gc_notified : CompileResult (ptr -> prog unit) :=
  if has_notified T then
    and_then (resolve_call T "notified" [TObjectPtr])
      (fun callee => Ok (fun o => call_member callee o [o]))
  else Ok (fun o => Ret tt).

Definition gc_final : CompileResult (ptr -> ptr -> ptr -> prog unit) :=
  if has_finaliser T then
    and_then (resolve_call T "finaliser" [TObjectPtr; TObjectStackRef])
      (fun callee =>
         Ok (fun o region sub_regions => call_member callee o [region; sub_regions]))
  else Ok (fun o region sub_regions => Ret tt).

Definition gc_destructor : CompileResult (ptr -> prog unit) :=
  Ok (fun o => Call (Destructor_call T o) (fun _ => Ret tt)).

(** Lines 82-87. *)
Definition desc : Descriptor.t :=
  {| Descriptor.size := vsizeof T;
     Descriptor.trace := Some (Fn_gc_trace T region_type Base);
     Descriptor.finaliser :=
       if has_finaliser T then Some (Fn_gc_final T region_type Base) else None;
     Descriptor.notified :=
       if has_notified T then Some (Fn_gc_notified T region_type Base) else None;
     Descriptor.destructor :=
       if has_destructor T then Some (Fn_gc_destructor T region_type Base) else None |}.

Definition addr_desc : DescriptorPtr := Addr_desc T region_type Base.

(** Using [desc] instantiates the class and the four functions its
    initialiser names. *)
Definition instantiate_desc : CompileResult Descriptor.t :=
  and_then V (fun _ =>
  and_then gc_trace (fun _ =>
  and_then gc_final (fun _ =>
  and_then gc_notified (fun _ =>
  and_then gc_destructor (fun _ => Ok desc))))).

(** Lines 91-94. *)
Definition get_alloc_epoch : prog EpochMark := perform Scheduler_alloc_epoch.

(** Lines 99-129: the four forms of [operator new].  The [size_t] argument
    is unnamed and unused. *)
Definition operator_new (_ : N) : prog ptr :=
  if is_same_v Base Object then
    alloc <- perform ThreadAlloc_get ;;
    perform (Region_create RegionClass alloc (Descriptor.size desc) addr_desc)
  else
    alloc <- perform ThreadAlloc_get ;;
    p <- perform (Alloc_alloc alloc (Descriptor.size desc)) ;;
    perform (Object_register_object p addr_desc).

Definition operator_new_alloc (_ : N) (alloc : ptr) : prog ptr :=
  if is_same_v Base Object then
    perform (Region_create RegionClass alloc (Descriptor.size desc) addr_desc)
  else
    p <- perform (Alloc_alloc alloc (Descriptor.size desc)) ;;
    perform (Object_register_object p addr_desc).

Definition operator_new_region (_ : N) (region : ptr) : CompileResult (prog ptr) :=
  and_then (static_assert (is_same_v Base Object) "Don't call on cowns.")
    (fun _ =>
       Ok (alloc <- perform ThreadAlloc_get ;;
           perform (Region_alloc RegionClass alloc region
                      (Descriptor.size desc) addr_desc))).

(** In the last form the [if constexpr] leaves no [return] when [Base] is
    not [Object]; the assertion has rejected that instantiation before. *)
Definition operator_new_alloc_region (_ : N) (alloc region : ptr)
  : CompileResult (prog ptr) :=
  and_then (static_assert (is_same_v Base Object) "Don't call on cowns.")
    (fun _ =>
       if is_same_v Base Object then
         Ok (perform (Region_alloc RegionClass alloc region
                        (Descriptor.size desc) addr_desc))
       else CompileError "Don't call on cowns.").

(** Lines 131-164: the five forms of [operator delete], all with an empty
    body. *)
Definition operator_delete (_ : ptr) : prog unit := Ret tt.
Definition operator_delete_size (_ : ptr) (_ : N) : prog unit := Ret tt.
Definition operator_delete_alloc (_ : ptr) (_ : ptr) : prog unit := Ret tt.
Definition operator_delete_region (_ : ptr) (_ : ptr) : prog unit := Ret tt.
Definition operator_delete_alloc_region (_ : ptr) (_ : ptr) (_ : ptr) : prog unit :=
  Ret tt.

End V.

(** Line 173: [template<class T> using VCown = V<T, RegionType::Cown, Cown>]. *)
Definition VCown (T : Class) : CompileResult unit := V RegionType.Cown Cown.

(** Calling through a function pointer stored in a descriptor. *)
Definition invoke (f : FnPtr) (args : list ptr) : CompileResult (prog unit) :=
  match f, args with
  | Fn_gc_trace T rt B, [o; st] =>
      and_then (gc_trace T) (fun g => Ok (g o st))
  | Fn_gc_final T rt B, [o; region; sub_regions] =>
      and_then (gc_final T) (fun g => Ok (g o region sub_regions))
  | Fn_gc_notified T rt B, [o] =>
      and_then (gc_notified T) (fun g => Ok (g o))
  | Fn_gc_destructor T rt B, [o] =>
      and_then (gc_destructor T) (fun g => Ok (g o))
  | _, _ => CompileError "wrong number of arguments"
  end.

(** ** Allocation and deallocation functions of [V] (lines 99-168)

    The public members, with the parameter lists overload resolution sees
    and whether the declaration is [= delete]. *)

Inductive AllocationFunction : Type :=
| New_size                  (* line 99  *)
| New_size_alloc            (* line 109 *)
| New_size_region           (* line 117 *)
| New_size_alloc_region     (* line 124 *)
| Delete_ptr                (* line 131 *)
| Delete_ptr_size           (* line 138 *)
| Delete_ptr_alloc          (* line 145 *)
| Delete_ptr_region         (* line 152 *)
| Delete_ptr_alloc_region   (* line 159 *)
| NewArray_size             (* line 166 *)
| DeleteArray_ptr           (* line 167 *)
| DeleteArray_ptr_size.     (* line 168 *)

Definition allocation_functions : list AllocationFunction :=
  [New_size; New_size_alloc; New_size_region; New_size_alloc_region;
   Delete_ptr; Delete_ptr_size; Delete_ptr_alloc; Delete_ptr_region;
   Delete_ptr_alloc_region; NewArray_size; DeleteArray_ptr;
   DeleteArray_ptr_size].

Definition fn_name (f : AllocationFunction) : string :=
  match f with
  | New_size | New_size_alloc | New_size_region | New_size_alloc_region =>
      "operator new"
  | Delete_ptr | Delete_ptr_size | Delete_ptr_alloc | Delete_ptr_region
  | Delete_ptr_alloc_region => "operator delete"
  | NewArray_size => "operator new[]"
  | DeleteArray_ptr | DeleteArray_ptr_size => "operator delete[]"
  end.

Definition fn_params (f : AllocationFunction) : list CType :=
  match f with
  | New_size => [TSizeT]
  | New_size_alloc => [TSizeT; TAllocPtr]
  | New_size_region => [TSizeT; TObjectPtr]
  | New_size_alloc_region => [TSizeT; TAllocPtr; TObjectPtr]
  | Delete_ptr => [TVoidPtr]
  | Delete_ptr_size => [TVoidPtr; TSizeT]
  | Delete_ptr_alloc => [TVoidPtr; TAllocPtr]
  | Delete_ptr_region => [TVoidPtr; TObjectPtr]
  | Delete_ptr_alloc_region => [TVoidPtr; TAllocPtr; TObjectPtr]
  | NewArray_size => [TSizeT]
  | DeleteArray_ptr => [TVoidPtr]
  | DeleteArray_ptr_size => [TVoidPtr; TSizeT]
  end.

Definition fn_deleted (f : AllocationFunction) : bool :=
  match f with
  | NewArray_size | DeleteArray_ptr | DeleteArray_ptr_size => true
  | _ => false
  end.

Definition candidate (name : string) (args : list CType) (f : AllocationFunction)
  : bool :=
  String.eqb (fn_name f) name && accepts (fn_params f) args.

(** Overload resolution among the members of [V]; selecting a deleted
    function is an error. *)
Definition select (name : string) (args : list CType)
  : CompileResult AllocationFunction :=
  match filter (candidate name args) allocation_functions with
  | [] => CompileError "no matching function for call"
  | [f] =>
      if fn_deleted f then CompileError "use of deleted function" else Ok f
  | _ :: _ :: _ => CompileError "call is ambiguous"
  end.

(** ** New- and delete-expressions on a managed type *)

Inductive Arg : Type :=
| ArgAlloc (alloc : ptr)
| ArgObject (o : ptr).

Definition arg_type (a : Arg) : CType :=
  match a with
  | ArgAlloc _ => TAllocPtr
  | ArgObject _ => TObjectPtr
  end.

Section Expressions.
Variable T : Class.
Variable region_type : RegionType.t.
Variable Base : BaseClass.

(** The body the selected function runs on the given placement arguments;
    every form of [operator new] uses [desc]. *)
Definition allocation_body (f : AllocationFunction) (placement : list Arg)
  : CompileResult (prog ptr) :=
  and_then (instantiate_desc T region_type Base) (fun _ =>
    match f, placement with
    | New_size, [] => Ok (operator_new T region_type Base (sizeof T))
    | New_size_alloc, [ArgAlloc alloc] =>
        Ok (operator_new_alloc T region_type Base (sizeof T) alloc)
    | New_size_region, [ArgObject region] =>
        operator_new_region T region_type Base (sizeof T) region
    | New_size_alloc_region, [ArgAlloc alloc; ArgObject region] =>
        operator_new_alloc_region T region_type Base (sizeof T) alloc region
    | _, _ => CompileError "no matching function for call"
    end).

(** The allocation function that [new (placement...) T], or
    [new (placement...) T[n]] when [array], selects, as the program it runs
    on these arguments.  The constructors the expression runs afterwards are
    not part of this. *)
Definition new_expression (array : bool) (placement : list Arg)
  : CompileResult (prog ptr) :=
  and_then (V region_type Base) (fun _ =>
  and_then
    (select (if array then "operator new[]" else "operator new")
       (TSizeT :: map arg_type placement))
    (fun f => allocation_body f placement)).

(** The deallocation function that [delete p], or [delete[] p] when
    [array], looks up: the one taking just the pointer.  The destructor the
    expression runs before it is not part of this. *)
Definition delete_expression (array : bool) (p : ptr) : CompileResult (prog unit) :=
  and_then (V region_type Base) (fun _ =>
  and_then
    (select (if array then "operator delete[]" else "operator delete") [TVoidPtr])
    (fun f =>
       match f with
       | Delete_ptr => Ok (operator_delete p)
       | _ => CompileError "no matching function for call"
       end)).

End Expressions.

(** ** A reference runtime for running examples

    The world is the next free address; every call is answered with a fresh
    address, and the thread's allocator lives at address 1. *)
Definition bump (c : call) (next : N) : ptr * N :=
  match c with
  | ThreadAlloc_get => (1%N, next)
  | Member_call _ _ _ _ | Destructor_call _ _ => (0%N, next)
  | _ => (next, (next + 16)%N)
  end.

(** Sample classes. *)
Definition method (name : string) (params : list CType) : Member :=
  {| m_name := name; m_access := Public; m_kind := MemberFunction params |}.

Definition Counter : Class :=
  {| c_name := "Counter";
     members := [method "trace" [TObjectStackRef]];
     sizeof := 24; vsizeof := 32; is_trivially_destructible := true |}.

Definition Logger : Class :=
  {| c_name := "Logger";
     members := [method "trace" [TObjectStackRef]; method "notified" [TObjectPtr]];
     sizeof := 40; vsizeof := 48; is_trivially_destructible := false |}.

Definition Actor : Class :=
  {| c_name := "Actor";
     members := [method "trace" [TObjectStackRef]; method "notified" [TObjectPtr]];
     sizeof := 64; vsizeof := 64; is_trivially_destructible := true |}.

(** No [trace] at all. *)
Definition Leaf : Class :=
  {| c_name := "Leaf"; members := [];
     sizeof := 16; vsizeof := 16; is_trivially_destructible := true |}.

(** [notified] with a parameter list the trampoline cannot call. *)
Definition Mismatched : Class :=
  {| c_name := "Mismatched";
     members := [method "trace" [TObjectStackRef];
                 method "notified" [TOther "int"; TOther "int"]];
     sizeof := 16; vsizeof := 16; is_trivially_destructible := true |}.

(** [notified] declared without [public:] in a [class]. *)
Definition Hidden : Class :=
  {| c_name := "Hidden";
     members := [method "trace" [TObjectStackRef];
                 {| m_name := "notified"; m_access := Private;
                    m_kind := MemberFunction [TObjectPtr] |}];
     sizeof := 16; vsizeof := 16; is_trivially_destructible := true |}.

(** Two public overloads of [notified] and of [finaliser]. *)
Definition Overloaded : Class :=
  {| c_name := "Overloaded";
     members := [method "trace" [TObjectStackRef];
                 method "notified" [TObjectPtr];
                 method "notified" [TOther "int"];
                 method "finaliser" [TObjectPtr; TObjectStackRef];
                 method "finaliser" []];
     sizeof := 16; vsizeof := 16; is_trivially_destructible := true |}.

(** [finaliser] and a destructor that is not trivial. *)
Definition Holder : Class :=
  {| c_name := "Holder";
     members := [method "trace" [TObjectStackRef];
                 method "finaliser" [TObjectPtr; TObjectStackRef]];
     sizeof := 48; vsizeof := 48; is_trivially_destructible := false |}.

(** [finaliser] taking only the region. *)
Definition ShortFinaliser : Class :=
  {| c_name := "ShortFinaliser";
     members := [method "trace" [TObjectStackRef];
                 method "finaliser" [TObjectPtr]];
     sizeof := 16; vsizeof := 16; is_trivially_destructible := true |}.

(** [notified] taking no argument. *)
Definition Bare : Class :=
  {| c_name := "Bare";
     members := [method "trace" [TObjectStackRef]; method "notified" []];
     sizeof := 16; vsizeof := 16; is_trivially_destructible := true |}.


(** ** Reading a call log *)

(** Calls into a region class. *)
Definition region_call (c : call) : bool :=
  match c with
  | Region_create _ _ _ _ | Region_alloc _ _ _ _ _ => true
  | _ => false
  end.

(** Calls that make a cown: raw storage from the allocator and its
    registration. *)
Definition cown_call (c : call) : bool :=
  match c with
  | Alloc_alloc _ _ | Object_register_object _ _ => true
  | _ => false
  end.

(** The call names the region class, the size and the descriptor of the
    instantiation [V<T, region_type, Base>], as far as it carries them. *)
Definition stamped (T : Class) (region_type : RegionType.t) (Base : BaseClass)
  (c : call) : Prop :=
  match c with
  | Alloc_alloc _ size => size = vsizeof T
  | Region_create R _ size d | Region_alloc R _ _ size d =>
      R = RegionType_to_class region_type /\ size = vsizeof T
      /\ d = Addr_desc T region_type Base
  | Object_register_object _ d => d = Addr_desc T region_type Base
  | _ => True
  end.

(** The placement parameters of an allocation or deallocation function:
    those after the size or the pointer. *)
Definition placement_params (f : AllocationFunction) : list CType :=
  tl (fn_params f).

(** * Properties *)

(** ** Basic facts about the embedding *)

Lemma RegionType_eqb_eq a b : RegionType.eqb a b = true <-> a = b.
Proof.
  destruct a, b; simpl; split; intro H; try discriminate; try reflexivity.
  - apply Nat.eqb_eq in H. now subst.
  - injection H as ->. apply Nat.eqb_refl.
Qed.

Lemma is_same_v_eq A B : is_same_v A B = true <-> A = B.
Proof.
  destruct A, B; simpl; split; intro H; try discriminate; try reflexivity.
  - apply String.eqb_eq in H. now subst.
  - injection H as ->. apply String.eqb_refl.
Qed.

Lemma is_same_v_neq A B : is_same_v A B = false <-> A <> B.
Proof.
  split.
  - intros H E. apply is_same_v_eq in E. congruence.
  - intro H. destruct (is_same_v A B) eqn:E; [|reflexivity].
    apply is_same_v_eq in E. contradiction.
Qed.

Lemma compiles_Ok {A} (r : CompileResult A) :
  compiles r = true <-> exists a, r = Ok a.
Proof.
  destruct r; simpl; split; intro H.
  - now exists a.
  - reflexivity.
  - discriminate.
  - destruct H as [a H]. discriminate.
Qed.

Lemma compiles_and_then {A B} (r : CompileResult A) (k : A -> CompileResult B) :
  compiles r = false -> compiles (and_then r k) = false.
Proof. destruct r; simpl; [discriminate | reflexivity]. Qed.

Lemma lookup_In T name m : In m (lookup T name) -> In m (members T) /\ m_name m = name.
Proof.
  unfold lookup. rewrite filter_In. intros [H E]. split; [exact H|].
  now apply String.eqb_eq.
Qed.

Lemma lookup_nil_iff T name : lookup T name = [] <-> ~ declares T name.
Proof.
  unfold lookup, declares. split.
  - intros H [m [Hin Hn]].
    assert (In m (filter (named name) (members T))) as Hf.
    { apply filter_In. split; [exact Hin|]. now apply String.eqb_eq. }
    rewrite H in Hf. contradiction.
  - intro H. destruct (filter (named name) (members T)) as [|m l] eqn:E; [reflexivity|].
    exfalso. apply H. exists m.
    assert (In m (filter (named name) (members T))) as Hf by (rewrite E; now left).
    apply filter_In in Hf. destruct Hf as [Hin Hn]. split; [exact Hin|].
    now apply String.eqb_eq.
Qed.

(** What the detection idiom accepts: exactly one declaration of the name,
    public, and a function or an object. *)
Lemma address_of_member_Ok T name m :
  address_of_member T name = Ok m <->
  lookup T name = [m] /\ has_address m = true /\ is_public m = true.
Proof.
  unfold address_of_member.
  destruct (lookup T name) as [|a [|b l]].
  - split; [discriminate | intros [H _]; discriminate].
  - destruct (has_address a) eqn:Ha, (is_public a) eqn:Hp; simpl; split;
      try discriminate.
    + intro H. injection H as ->. auto.
    + intros [H _]. now injection H as ->.
    + intros [H [_ H']]. injection H as ->. congruence.
    + intros [H [H' _]]. injection H as ->. congruence.
    + intros [H [H' _]]. injection H as ->. congruence.
  - split; [discriminate | intros [H _]; discriminate].
Qed.

Lemma capability_true T name :
  compiles (address_of_member T name) = true <->
  exists m, lookup T name = [m] /\ has_address m = true /\ is_public m = true.
Proof.
  rewrite compiles_Ok. split; intros [m H]; exists m; now apply address_of_member_Ok.
Qed.

Lemma capability_absent T name :
  ~ declares T name -> compiles (address_of_member T name) = false.
Proof.
  intro H. apply lookup_nil_iff in H. unfold address_of_member. now rewrite H.
Qed.

(** The parameter list plays no part in detection. *)
Lemma capability_ignores_signature T name access params :
  lookup T name = [{| m_name := name; m_access := access; m_kind := MemberFunction params |}] ->
  compiles (address_of_member T name) = is_public {| m_name := name; m_access := access; m_kind := MemberFunction params |}.
Proof.
  intro H. unfold address_of_member. rewrite H. simpl.
  unfold is_public; simpl. now destruct access.
Qed.

Lemma V_Ok region_type Base :
  V region_type Base = Ok tt <->
  (Base = Object /\ (region_type = RegionType.Trace \/ region_type = RegionType.Arena))
  \/ (Base = Cown /\ region_type = RegionType.Cown).
Proof.
  unfold V, static_assert.
  destruct Base, region_type; simpl; split; intro H;
    try reflexivity; try discriminate; auto;
    destruct H as [[H1 [H2|H2]]|[H1 H2]]; discriminate.
Qed.

Lemma V_result region_type Base : compiles (V region_type Base) = true -> V region_type Base = Ok tt.
Proof. destruct (V region_type Base) as [[]|]; [reflexivity | discriminate]. Qed.

(** Stepping [run] through one call. *)
Lemma run_Call World (handler : call -> World -> ptr * World) A c (k : ptr -> prog A) w :
  run handler (Call c k) w =
  (fst (fst (run handler (k (fst (handler c w))) (snd (handler c w)))),
   snd (fst (run handler (k (fst (handler c w))) (snd (handler c w)))),
   (c, fst (handler c w)) :: snd (run handler (k (fst (handler c w))) (snd (handler c w)))).
Proof.
  simpl. destruct (handler c w) as [r w1]. simpl.
  destruct (run handler (k r) w1) as [[a w2] log]. reflexivity.
Qed.

Lemma run_Ret World (handler : call -> World -> ptr * World) A (a : A) w :
  run handler (Ret a) w = (a, w, []).
Proof. reflexivity. Qed.

Ltac run_calls :=
  unfold perform; cbn [bind];
  repeat (rewrite run_Call; cbn [bind fst snd]);
  rewrite ?run_Ret; cbn [fst snd].

(** ** Descriptor synthesis *)

Lemma Overloaded_declares_finaliser : declares Overloaded "finaliser".
Proof. exists (method "finaliser" []). split; [simpl; auto 10 | reflexivity]. Qed.

Lemma Overloaded_declares_notified : declares Overloaded "notified".
Proof. exists (method "notified" [TObjectPtr]). split; [simpl; auto | reflexivity]. Qed.

(** C1 at its failing input: [V<Overloaded>] compiles, [Overloaded] declares
    public members named [finaliser] and [notified], and both fields of its
    descriptor are null; so "null iff no member of that name" is false
    there. *)
Theorem desc_null_despite_member :
  instantiate_desc Overloaded RegionType.Trace Object
    = Ok (desc Overloaded RegionType.Trace Object) /\
  declares Overloaded "finaliser" /\
  Descriptor.finaliser (desc Overloaded RegionType.Trace Object) = None /\
  declares Overloaded "notified" /\
  Descriptor.notified (desc Overloaded RegionType.Trace Object) = None /\
  ~ (Descriptor.finaliser (desc Overloaded RegionType.Trace Object) = None
     <-> ~ declares Overloaded "finaliser").
Proof.
  split; [reflexivity|].
  split; [apply Overloaded_declares_finaliser|].
  split; [reflexivity|].
  split; [apply Overloaded_declares_notified|].
  split; [reflexivity|].
  intros [H _]. apply H; [reflexivity | apply Overloaded_declares_finaliser].
Qed.

(** ** Capability introspection *)

(** C3 at its failing inputs: [Overloaded] declares public members named
    [notified] and [finaliser], each twice, and [Hidden] declares a private
    [notified]; the predicates are false on both, so the members are never
    called.  A single public [notified] with parameters the trampoline
    cannot supply is detected, and its trampoline does not compile. *)
Theorem overloaded_member_not_detected :
  declares Overloaded "notified" /\ has_notified Overloaded = false /\
  declares Overloaded "finaliser" /\ has_finaliser Overloaded = false /\
  declares Hidden "notified" /\ has_notified Hidden = false /\
  compiles (instantiate_desc Overloaded RegionType.Trace Object) = true /\
  compiles (instantiate_desc Hidden RegionType.Trace Object) = true /\
  has_notified Mismatched = true /\
  compiles (gc_notified Mismatched) = false.
Proof.
  repeat split; try reflexivity.
  - exists (method "notified" [TObjectPtr]). split; [simpl; auto|reflexivity].
  - exists (method "finaliser" []). split; [simpl; auto 10|reflexivity].
  - eexists. split; [simpl; right; left; reflexivity | reflexivity].
Qed.

(** ** Well-formedness of an instantiation *)

(** C6: the class-scope assertions accept [V<T, region_type, Base>] exactly
    for [Object] with [Trace] or [Arena] and for [Cown] with [Cown].  A
    trace or arena discipline on another base, the cown discipline on another
    base, and any base besides [Object] and [Cown] are compile errors; an
    instantiation so rejected yields no allocation program at all. *)
Theorem V_rejects_mismatch (region_type : RegionType.t) (Base : BaseClass) :
  (V region_type Base = Ok tt <->
     (Base = Object /\
      (region_type = RegionType.Trace \/ region_type = RegionType.Arena))
     \/ (Base = Cown /\ region_type = RegionType.Cown)) /\
  (region_type = RegionType.Trace \/ region_type = RegionType.Arena ->
     Base <> Object -> compiles (V region_type Base) = false) /\
  (region_type = RegionType.Cown -> Base <> Cown ->
     compiles (V region_type Base) = false) /\
  (Base <> Object -> Base <> Cown -> compiles (V region_type Base) = false) /\
  (compiles (V region_type Base) = false ->
     forall T array placement p,
       compiles (new_expression T region_type Base array placement) = false /\
       compiles (delete_expression region_type Base array p) = false /\
       compiles (instantiate_desc T region_type Base) = false).
Proof.
  split; [apply V_Ok|].
  assert (forall rt B, ~ ((B = Object /\ (rt = RegionType.Trace \/ rt = RegionType.Arena))
                         \/ (B = Cown /\ rt = RegionType.Cown)) ->
                       compiles (V rt B) = false) as Hrej.
  { intros rt B H. destruct (compiles (V rt B)) eqn:E; [|reflexivity].
    apply V_result in E. apply V_Ok in E. contradiction. }
  repeat split.
  - intros H HB. apply Hrej. intros [[E _]|[_ E]]; [contradiction|].
    destruct H; congruence.
  - intros H HB. apply Hrej. intros [[_ [E|E]]|[E _]]; congruence.
  - intros H1 H2. apply Hrej. intros [[E _]|[E _]]; contradiction.
  - unfold new_expression. now apply compiles_and_then.
  - unfold delete_expression. now apply compiles_and_then.
  - unfold instantiate_desc. now apply compiles_and_then.
Qed.

(** ** Array forms *)

Lemma select_new_array args : compiles (select "operator new[]" args) = false.
Proof.
  unfold select. cbn [allocation_functions filter candidate fn_name fn_params String.eqb Ascii.eqb Bool.eqb andb].
  destruct (accepts [TSizeT] args); reflexivity.
Qed.

Lemma select_delete_array args : compiles (select "operator delete[]" args) = false.
Proof.
  unfold select. cbn [allocation_functions filter candidate fn_name fn_params String.eqb Ascii.eqb Bool.eqb andb].
  destruct (accepts [TVoidPtr] args), (accepts [TVoidPtr; TSizeT] args); reflexivity.
Qed.

(** C7: every array new-expression and every array delete-expression on a
    managed type is a compile error, whatever the placement arguments, and so
    is any direct call of [operator new[]] or [operator delete[]]; the
    plain array forms fail because the function they select is deleted. *)
Theorem array_forms_do_not_compile
  (T : Class) (region_type : RegionType.t) (Base : BaseClass)
  (placement : list Arg) (p : ptr) (args : list CType) :
  compiles (new_expression T region_type Base true placement) = false /\
  compiles (delete_expression region_type Base true p) = false /\
  compiles (select "operator new[]" args) = false /\
  compiles (select "operator delete[]" args) = false /\
  select "operator new[]" [TSizeT] = CompileError "use of deleted function" /\
  select "operator delete[]" [TVoidPtr] = CompileError "use of deleted function" /\
  select "operator delete[]" [TVoidPtr; TSizeT] = CompileError "use of deleted function".
Proof.
  repeat split; try reflexivity.
  - unfold new_expression. destruct (V region_type Base); [|reflexivity].
    cbn [and_then]. apply compiles_and_then, select_new_array.
  - unfold delete_expression. destruct (V region_type Base); [|reflexivity].
    cbn [and_then]. apply compiles_and_then, select_delete_array.
  - apply select_new_array.
  - apply select_delete_array.
Qed.

(** ** Deallocation *)

(** C8: each of the five forms of [operator delete] makes no call and leaves
    the runtime's state as it was, for every argument and every state. *)
Theorem operator_delete_no_op
  (World : Type) (handler : call -> World -> ptr * World) (w : World)
  (p alloc region : ptr) (sz : N) :
  run handler (operator_delete p) w = (tt, w, []) /\
  run handler (operator_delete_size p sz) w = (tt, w, []) /\
  run handler (operator_delete_alloc p alloc) w = (tt, w, []) /\
  run handler (operator_delete_region p region) w = (tt, w, []) /\
  run handler (operator_delete_alloc_region p alloc region) w = (tt, w, []).
Proof.
  repeat split.
Qed.

(** ** The trace trampoline *)

Lemma resolve_call_T_member T name args m :
  resolve_call T name args = Ok (T_member m) ->
  In m (members T) /\ m_name m = name /\ is_public m = true
  /\ callable_with args m = true.
Proof.
  unfold resolve_call. destruct (lookup T name) as [|a l] eqn:E.
  - destruct (String.eqb name "trace" && accepts [TObjectStackRef] args); discriminate.
  - destruct (filter (callable_with args) (a :: l)) as [|b [|c l']] eqn:F; try discriminate.
    destruct (is_public b) eqn:P; [|discriminate].
    intro H. injection H as <-.
    assert (In b (filter (callable_with args) (a :: l))) as Hb by (rewrite F; now left).
    apply filter_In in Hb. destruct Hb as [Hin Hc]. rewrite <- E in Hin.
    apply lookup_In in Hin. tauto.
Qed.

Lemma resolve_call_V_trace T name args :
  resolve_call T name args = Ok V_trace -> lookup T name = [] /\ name = "trace".
Proof.
  unfold resolve_call. destruct (lookup T name) as [|a l] eqn:E.
  - destruct (String.eqb name "trace") eqn:N; simpl; [|discriminate].
    intros _. split; [reflexivity|]. now apply String.eqb_eq.
  - destruct (filter (callable_with args) (a :: l)) as [|b [|c l']]; try discriminate.
    destruct (is_public b); discriminate.
Qed.

Lemma instantiate_desc_Ok T region_type Base d :
  instantiate_desc T region_type Base = Ok d ->
  V region_type Base = Ok tt /\ d = desc T region_type Base
  /\ compiles (gc_trace T) = true.
Proof.
  unfold instantiate_desc.
  destruct (V region_type Base) as [[]|]; [|discriminate]. cbn [and_then].
  destruct (gc_trace T); [|discriminate]. cbn [and_then].
  destruct (gc_final T); [|discriminate]. cbn [and_then].
  destruct (gc_notified T); [|discriminate]. cbn [and_then].
  unfold gc_destructor. cbn [and_then]. intro H. injection H as <-. auto.
Qed.

(** C2: for every managed type, that is whenever [V<T, region_type, Base>]
    and its descriptor compile, the trace field is not null: it points to the
    [gc_trace] of that instantiation, and calling it with an object and a
    worklist makes the one call [trace(st)] on the same object seen as a [T],
    with that worklist: a public [trace] declared by [T], or the [trace] that
    [T] inherits when it declares none. *)
Theorem desc_trace_forwards
  (T : Class) (region_type : RegionType.t) (Base : BaseClass) (d : Descriptor.t) :
  instantiate_desc T region_type Base = Ok d ->
  Descriptor.trace d <> None /\
  Descriptor.trace d = Some (Fn_gc_trace T region_type Base) /\
  forall o st : ptr,
  exists body,
    invoke (Fn_gc_trace T region_type Base) [o; st] = Ok body /\
    ((exists m,
        In m (members T) /\ m_name m = "trace" /\ is_public m = true /\
        callable_with [TObjectStackRef] m = true /\
        forall World (handler : call -> World -> ptr * World) (w : World),
          run handler body w =
            (tt, snd (handler (Member_call T m o [st]) w),
             [(Member_call T m o [st], fst (handler (Member_call T m o [st]) w))]))
     \/ (~ declares T "trace" /\ body = trace st)).
Proof.
  intro H. apply instantiate_desc_Ok in H. destruct H as [_ [-> Hc]].
  split; [discriminate|]. split; [reflexivity|].
  intros o st. unfold invoke.
  unfold gc_trace in *.
  destruct (resolve_call T "trace" [TObjectStackRef]) as [callee|] eqn:R;
    [|discriminate].
  cbn [and_then]. eexists. split; [reflexivity|].
  destruct callee as [m|].
  - left. exists m. apply resolve_call_T_member in R.
    destruct R as [R1 [R2 [R3 R4]]]. repeat split; try assumption.
    intros World handler w. cbn [call_member]. run_calls. reflexivity.
  - right. apply resolve_call_V_trace in R. destruct R as [R _].
    apply lookup_nil_iff in R. split; [exact R | reflexivity].
Qed.

(** The hypothesis of C2 holds for [Counter] in a trace region. *)
Lemma desc_trace_forwards_witness :
  instantiate_desc Counter RegionType.Trace Object
    = Ok (desc Counter RegionType.Trace Object) /\
  Descriptor.trace (desc Counter RegionType.Trace Object)
    = Some (Fn_gc_trace Counter RegionType.Trace Object).
Proof.
  split; [reflexivity|].
  exact (proj1 (proj2 (@desc_trace_forwards Counter RegionType.Trace Object _ eq_refl))).
Defined.

(** C10: a managed type that declares no [trace] still gets a trace
    trampoline that compiles.  The trampoline resolves the call to the empty
    [trace] of [V], so the trace field is not null and calling it makes no
    call at all, whatever the object and worklist. *)
Theorem trace_defaults_to_no_op
  (T : Class) (region_type : RegionType.t) (Base : BaseClass) :
  ~ declares T "trace" ->
  compiles (gc_trace T) = true /\
  Descriptor.trace (desc T region_type Base) = Some (Fn_gc_trace T region_type Base) /\
  (forall o st : ptr,
     invoke (Fn_gc_trace T region_type Base) [o; st] = Ok (trace st) /\
     forall World (handler : call -> World -> ptr * World) (w : World),
       run handler (trace st) w = (tt, w, [])).
Proof.
  intro H. apply lookup_nil_iff in H.
  assert (resolve_call T "trace" [TObjectStackRef] = Ok V_trace) as R.
  { unfold resolve_call. rewrite H. reflexivity. }
  assert (gc_trace T = Ok (fun o st => call_member T V_trace o [st])) as G.
  { unfold gc_trace. rewrite R. reflexivity. }
  repeat split.
  - now rewrite G.
  - unfold invoke. rewrite G. reflexivity.
Qed.

(** The hypothesis of C10 holds for [Leaf], which declares nothing. *)
Lemma trace_defaults_to_no_op_witness :
  ~ declares Leaf "trace" /\
  compiles (gc_trace Leaf) = true /\
  invoke (Fn_gc_trace Leaf RegionType.Trace Object) [7%N; 9%N] = Ok (Ret tt).
Proof.
  assert (~ declares Leaf "trace") as H.
  { intros [m [[] _]]. }
  split; [exact H|]. split.
  - exact (proj1 (@trace_defaults_to_no_op Leaf RegionType.Trace Object H)).
  - exact (proj1 (proj2 (proj2 (@trace_defaults_to_no_op Leaf RegionType.Trace Object H))
                    7%N 9%N)).
Defined.

(** ** Allocation routing *)

(** C4: on a well-formed managed type the base is [Object] or [Cown].  The
    form of [operator new] without extra arguments asks for the thread's
    allocator and then, for [Object], makes the single call to the region
    class's [create] with that allocator, the descriptor's size and address;
    for [Cown] it takes storage of that size from the allocator and hands it
    to [Object::register_object] with the descriptor.  The form with an
    allocator argument makes the same calls on the allocator it is given, so
    the first form is the second run on the thread's allocator. *)
Theorem operator_new_routing
  (T : Class) (region_type : RegionType.t) (Base : BaseClass) (sz : N)
  (World : Type) (handler : call -> World -> ptr * World) (w : World) :
  V region_type Base = Ok tt ->
  let alloc := fst (handler ThreadAlloc_get w) in
  let w1 := snd (handler ThreadAlloc_get w) in
  let create a :=
    Region_create (RegionType_to_class region_type) a (vsizeof T)
      (Addr_desc T region_type Base) in
  let allocate a := Alloc_alloc a (vsizeof T) in
  let register p := Object_register_object p (Addr_desc T region_type Base) in
  (Base = Object \/ Base = Cown) /\
  (Base = Object ->
     run handler (operator_new T region_type Base sz) w =
       (fst (handler (create alloc) w1), snd (handler (create alloc) w1),
        [(ThreadAlloc_get, alloc);
         (create alloc, fst (handler (create alloc) w1))]) /\
     forall a w',
       run handler (operator_new_alloc T region_type Base sz a) w' =
         (fst (handler (create a) w'), snd (handler (create a) w'),
          [(create a, fst (handler (create a) w'))])) /\
  (Base = Cown ->
     (let p := fst (handler (allocate alloc) w1) in
      let w2 := snd (handler (allocate alloc) w1) in
      run handler (operator_new T region_type Base sz) w =
        (fst (handler (register p) w2), snd (handler (register p) w2),
         [(ThreadAlloc_get, alloc); (allocate alloc, p);
          (register p, fst (handler (register p) w2))])) /\
     forall a w',
       let p := fst (handler (allocate a) w') in
       let w2 := snd (handler (allocate a) w') in
       run handler (operator_new_alloc T region_type Base sz a) w' =
         (fst (handler (register p) w2), snd (handler (register p) w2),
          [(allocate a, p); (register p, fst (handler (register p) w2))])) /\
  run handler (operator_new T region_type Base sz) w =
    (fst (fst (run handler (operator_new_alloc T region_type Base sz alloc) w1)),
     snd (fst (run handler (operator_new_alloc T region_type Base sz alloc) w1)),
     (ThreadAlloc_get, alloc)
       :: snd (run handler (operator_new_alloc T region_type Base sz alloc) w1)).
Proof.
  intro H. cbv zeta. apply V_Ok in H.
  split; [tauto|].
  unfold operator_new, operator_new_alloc, RegionClass, addr_desc, desc;
    cbn [Descriptor.size].
  split; [|split].
  - intros ->. simpl is_same_v. cbv iota. split.
    + run_calls. reflexivity.
    + intros a w'. run_calls. reflexivity.
  - intros ->. simpl is_same_v. cbv iota. split.
    + run_calls. reflexivity.
    + intros a w'. run_calls. reflexivity.
  - destruct (is_same_v Base Object); run_calls; reflexivity.
Qed.

(** C4 on the cown [Actor], run on the reference runtime. *)
Lemma operator_new_routing_witness :
  V RegionType.Cown Cown = Ok tt /\
  run bump (operator_new Actor RegionType.Cown Cown 64) 100%N =
    (116%N, 132%N,
     [(ThreadAlloc_get, 1%N); (Alloc_alloc 1%N 64%N, 100%N);
      (Object_register_object 100%N (Addr_desc Actor RegionType.Cown Cown), 116%N)]).
Proof.
  split; [reflexivity|].
  exact (proj1 (proj1 (proj2 (proj2
           (@operator_new_routing Actor RegionType.Cown Cown 64%N _ bump 100%N eq_refl)))
           eq_refl)).
Defined.

Lemma select_new_region :
  select "operator new" [TSizeT; TObjectPtr] = Ok New_size_region.
Proof. reflexivity. Qed.

Lemma select_new_alloc_region :
  select "operator new" [TSizeT; TAllocPtr; TObjectPtr] = Ok New_size_alloc_region.
Proof. reflexivity. Qed.

(** C5: on a managed type whose descriptor compiles, a new-expression with a
    parent object, with or without an allocator before it, compiles exactly
    when the base is [Object]; on a [Cown] base it is the compile error
    "Don't call on cowns.".  When it compiles it makes the single call to the
    region class's [alloc], passing the given object as the region to
    allocate in, the descriptor's size and address, and the caller's
    allocator or else the thread's. *)
Theorem parent_relative_new
  (T : Class) (region_type : RegionType.t) (Base : BaseClass) (d : Descriptor.t)
  (alloc region : ptr) :
  instantiate_desc T region_type Base = Ok d ->
  let in_region := new_expression T region_type Base false [ArgObject region] in
  let with_alloc :=
    new_expression T region_type Base false [ArgAlloc alloc; ArgObject region] in
  let place a :=
    Region_alloc (RegionType_to_class region_type) a region (vsizeof T)
      (Addr_desc T region_type Base) in
  (compiles in_region = true <-> Base = Object) /\
  (compiles with_alloc = true <-> Base = Object) /\
  (Base = Cown ->
     in_region = CompileError "Don't call on cowns." /\
     with_alloc = CompileError "Don't call on cowns.") /\
  (Base = Object ->
     exists body1 body2,
       in_region = Ok body1 /\ with_alloc = Ok body2 /\
       forall World (handler : call -> World -> ptr * World) (w : World),
         let a := fst (handler ThreadAlloc_get w) in
         let w1 := snd (handler ThreadAlloc_get w) in
         run handler body1 w =
           (fst (handler (place a) w1), snd (handler (place a) w1),
            [(ThreadAlloc_get, a); (place a, fst (handler (place a) w1))]) /\
         run handler body2 w =
           (fst (handler (place alloc) w), snd (handler (place alloc) w),
            [(place alloc, fst (handler (place alloc) w))])).
Proof.
  intro H. cbv zeta. pose proof (instantiate_desc_Ok _ _ _ H) as [HV _].
  unfold new_expression. rewrite HV. cbn [and_then map arg_type].
  rewrite select_new_region, select_new_alloc_region. cbn [and_then].
  unfold allocation_body. rewrite H. cbn [and_then].
  unfold operator_new_region, operator_new_alloc_region, static_assert,
    RegionClass, addr_desc, desc; cbn [Descriptor.size].
  apply V_Ok in HV. destruct HV as [[-> _]|[-> _]]; simpl is_same_v; cbv iota;
    cbn [and_then compiles].
  - repeat split; try discriminate.
    intros _. do 2 eexists. split; [reflexivity|]. split; [reflexivity|].
    intros World handler w. cbv zeta. split; run_calls; reflexivity.
  - repeat split; try discriminate.
Qed.

(** C5 on the cown [Actor] and on [Counter] in a trace region. *)
Lemma parent_relative_new_witness :
  instantiate_desc Actor RegionType.Cown Cown = Ok (desc Actor RegionType.Cown Cown) /\
  new_expression Actor RegionType.Cown Cown false [ArgObject 5%N]
    = CompileError "Don't call on cowns." /\
  compiles (new_expression Counter RegionType.Trace Object false [ArgObject 5%N]) = true.
Proof.
  split; [reflexivity|]. split.
  - exact (proj1 (proj1 (proj2 (proj2
             (@parent_relative_new Actor RegionType.Cown Cown _ 1%N 5%N eq_refl)))
             eq_refl)).
  - exact (proj2 (proj1
             (@parent_relative_new Counter RegionType.Trace Object _ 1%N 5%N eq_refl))
             eq_refl).
Defined.

(** ** The allocation epoch *)

(** C9, as stated, fails: constructing a [Counter] through the form of
    [operator new] without extra arguments compiles, and running it asks the
    scheduler for no epoch. *)
Lemma operator_new_asks_no_epoch :
  exists body,
    new_expression Counter RegionType.Trace Object false [] = Ok body /\
    log_of bump body 100%N =
      [(ThreadAlloc_get, 1%N);
       (Region_create (RegionType_to_class RegionType.Trace) 1%N 32%N
          (Addr_desc Counter RegionType.Trace Object), 100%N)] /\
    queries_epoch (log_of bump body 100%N) = false.
Proof. eexists. repeat split. Qed.

Lemma operator_new_calls T region_type Base sz World
  (handler : call -> World -> ptr * World) w :
  forallb (fun e => allocation_call (fst e))
    (log_of handler (operator_new T region_type Base sz) w) = true.
Proof.
  unfold log_of, operator_new. destruct (is_same_v Base Object); run_calls; reflexivity.
Qed.

Lemma operator_new_alloc_calls T region_type Base sz alloc World
  (handler : call -> World -> ptr * World) w :
  forallb (fun e => allocation_call (fst e))
    (log_of handler (operator_new_alloc T region_type Base sz alloc) w) = true.
Proof.
  unfold log_of, operator_new_alloc. destruct (is_same_v Base Object); run_calls; reflexivity.
Qed.

Lemma operator_new_region_calls T region_type Base sz region body World
  (handler : call -> World -> ptr * World) w :
  operator_new_region T region_type Base sz region = Ok body ->
  forallb (fun e => allocation_call (fst e)) (log_of handler body w) = true.
Proof.
  unfold log_of, operator_new_region, static_assert.
  destruct (is_same_v Base Object); [|discriminate]. cbn [and_then].
  intro H. injection H as <-. run_calls. reflexivity.
Qed.

Lemma operator_new_alloc_region_calls T region_type Base sz alloc region body World
  (handler : call -> World -> ptr * World) w :
  operator_new_alloc_region T region_type Base sz alloc region = Ok body ->
  forallb (fun e => allocation_call (fst e)) (log_of handler body w) = true.
Proof.
  unfold log_of, operator_new_alloc_region, static_assert.
  destruct (is_same_v Base Object); [|discriminate]. cbn [and_then].
  intro H. injection H as <-. run_calls. reflexivity.
Qed.

Lemma allocation_calls_no_epoch log :
  forallb (fun e : call * ptr => allocation_call (fst e)) log = true ->
  queries_epoch log = false.
Proof.
  unfold queries_epoch. induction log as [|[c r] log IH]; [reflexivity|].
  simpl. intro H. apply andb_true_iff in H. destruct H as [Hc Hl].
  rewrite (IH Hl). destruct c; simpl in *; try reflexivity; discriminate.
Qed.

Lemma new_expression_calls T region_type Base placement body World
  (handler : call -> World -> ptr * World) w :
  new_expression T region_type Base false placement = Ok body ->
  forallb (fun e => allocation_call (fst e)) (log_of handler body w) = true.
Proof.
  unfold new_expression.
  destruct (V region_type Base); [|discriminate]. cbn [and_then].
  destruct placement as [|[a1|o1] [|[a2|o2] [|[a3|o3] rest]]];
    try discriminate; cbn [map arg_type];
    match goal with
    | |- context [select ?n ?l] =>
        let r := eval vm_compute in (select n l) in
        change (select n l) with r
    end; cbn [and_then]; try discriminate;
    unfold allocation_body;
    (destruct (instantiate_desc T region_type Base); [|discriminate]);
    cbn [and_then].
  - intro H. injection H as <-. apply operator_new_calls.
  - intro H. injection H as <-. apply operator_new_alloc_calls.
  - apply operator_new_alloc_region_calls.
  - apply operator_new_region_calls.
Qed.

(** C9, amended: no allocation entry point asks for the allocation epoch or
    passes an epoch marker on.  Every new-expression that compiles on a
    managed type only calls the thread's allocator, the region class's
    [create] or [alloc], the allocator's [alloc] and
    [Object::register_object].  [get_alloc_epoch], when called, makes the
    single call [Scheduler::alloc_epoch()] and returns its answer. *)
Theorem allocation_asks_no_epoch
  (T : Class) (region_type : RegionType.t) (Base : BaseClass)
  (placement : list Arg) (body : prog ptr)
  (World : Type) (handler : call -> World -> ptr * World) (w : World) :
  new_expression T region_type Base false placement = Ok body ->
  queries_epoch (log_of handler body w) = false /\
  forallb (fun e => allocation_call (fst e)) (log_of handler body w) = true /\
  (forall sz alloc,
     queries_epoch (log_of handler (operator_new T region_type Base sz) w) = false /\
     queries_epoch (log_of handler (operator_new_alloc T region_type Base sz alloc) w)
       = false) /\
  run handler get_alloc_epoch w =
    (fst (handler Scheduler_alloc_epoch w), snd (handler Scheduler_alloc_epoch w),
     [(Scheduler_alloc_epoch, fst (handler Scheduler_alloc_epoch w))]).
Proof.
  intro H. pose proof (@new_expression_calls _ _ _ _ _ _ handler w H) as Hc.
  split; [now apply allocation_calls_no_epoch|]. split; [exact Hc|]. split.
  - intros sz alloc. split; apply allocation_calls_no_epoch.
    + apply operator_new_calls.
    + apply operator_new_alloc_calls.
  - unfold get_alloc_epoch. run_calls. reflexivity.
Qed.

(** C9, amended, on the cown [Actor] with a caller-supplied allocator. *)
Lemma allocation_asks_no_epoch_witness :
  new_expression Actor RegionType.Cown Cown false [ArgAlloc 3%N]
    = Ok (operator_new_alloc Actor RegionType.Cown Cown 64%N 3%N) /\
  queries_epoch
    (log_of bump (operator_new_alloc Actor RegionType.Cown Cown 64%N 3%N) 100%N) = false.
Proof.
  split; [reflexivity|].
  exact (proj1 (@allocation_asks_no_epoch Actor RegionType.Cown Cown [ArgAlloc 3%N] _
                  _ bump 100%N eq_refl)).
Defined.

(** * Further properties of the header *)

(** ** Helpers *)

Lemma instantiate_desc_compiles T region_type Base :
  compiles (instantiate_desc T region_type Base) = true <->
  V region_type Base = Ok tt /\ compiles (gc_trace T) = true
  /\ compiles (gc_final T) = true /\ compiles (gc_notified T) = true.
Proof.
  unfold instantiate_desc.
  destruct (V region_type Base) as [[]|]; cbn [and_then compiles].
  - destruct (gc_trace T); cbn [and_then compiles];
      [|split; [discriminate | intros [_ [H _]]; discriminate]].
    destruct (gc_final T); cbn [and_then compiles];
      [|split; [discriminate | intros [_ [_ [H _]]]; discriminate]].
    destruct (gc_notified T); cbn [and_then compiles];
      [|split; [discriminate | intros [_ [_ [_ H]]]; discriminate]].
    split; auto.
  - split; [discriminate | intros [H _]; discriminate].
Qed.

Lemma instantiate_desc_parts T region_type Base d :
  instantiate_desc T region_type Base = Ok d ->
  d = desc T region_type Base /\ V region_type Base = Ok tt
  /\ compiles (gc_final T) = true /\ compiles (gc_notified T) = true.
Proof.
  intro H. pose proof (instantiate_desc_Ok _ _ _ H) as [HV [Hd _]].
  assert (compiles (instantiate_desc T region_type Base) = true) as Hc
    by now rewrite H.
  apply instantiate_desc_compiles in Hc. tauto.
Qed.

Lemma resolve_call_single T name args m callee :
  lookup T name = [m] ->
  resolve_call T name args = Ok callee ->
  callee = T_member m /\ is_public m = true /\ callable_with args m = true.
Proof.
  intros L. unfold resolve_call. rewrite L. cbn [filter].
  destruct (callable_with args m); [|discriminate].
  destruct (is_public m); [|discriminate].
  intro H. injection H as <-. auto.
Qed.

Lemma resolve_call_single_fails T name args m :
  lookup T name = [m] -> callable_with args m = false ->
  compiles (resolve_call T name args) = false.
Proof.
  intros L C. unfold resolve_call. rewrite L. cbn [filter]. now rewrite C.
Qed.

Lemma new_expression_needs_desc T region_type Base array placement :
  compiles (instantiate_desc T region_type Base) = false ->
  compiles (new_expression T region_type Base array placement) = false.
Proof.
  intro H. unfold new_expression.
  destruct (V region_type Base); [|reflexivity]. cbn [and_then].
  destruct (select _ _); [|reflexivity]. cbn [and_then].
  unfold allocation_body. now apply compiles_and_then.
Qed.

(** The four shapes a new-expression that compiles can have. *)
Lemma new_expression_inv T region_type Base placement body :
  new_expression T region_type Base false placement = Ok body ->
  (placement = [] /\ body = operator_new T region_type Base (sizeof T))
  \/ (exists alloc, placement = [ArgAlloc alloc] /\
        body = operator_new_alloc T region_type Base (sizeof T) alloc)
  \/ (exists region, placement = [ArgObject region] /\
        operator_new_region T region_type Base (sizeof T) region = Ok body)
  \/ (exists alloc region, placement = [ArgAlloc alloc; ArgObject region] /\
        operator_new_alloc_region T region_type Base (sizeof T) alloc region = Ok body).
Proof.
  unfold new_expression.
  destruct (V region_type Base); [|discriminate]. cbn [and_then].
  destruct placement as [|[a1|o1] [|[a2|o2] [|[a3|o3] rest]]];
    try discriminate; cbn [map arg_type];
    match goal with
    | |- context [select ?n ?l] =>
        let r := eval vm_compute in (select n l) in
        change (select n l) with r
    end; cbn [and_then]; try discriminate;
    unfold allocation_body;
    (destruct (instantiate_desc T region_type Base); [|discriminate]);
    cbn [and_then].
  - intro H. injection H as <-. left. auto.
  - intro H. injection H as <-. right. left. eauto.
  - intro H. right. right. right. eauto.
  - intro H. right. right. left. eauto.
Qed.

Lemma operator_new_region_Ok T region_type Base sz region body :
  operator_new_region T region_type Base sz region = Ok body ->
  Base = Object /\
  body = (alloc <- perform ThreadAlloc_get ;;
          perform (Region_alloc (RegionType_to_class region_type) alloc region
                     (vsizeof T) (Addr_desc T region_type Base))).
Proof.
  unfold operator_new_region, static_assert.
  destruct (is_same_v Base Object) eqn:E; [|discriminate]. cbn [and_then].
  intro H. injection H as <-. apply is_same_v_eq in E. auto.
Qed.

Lemma operator_new_alloc_region_Ok T region_type Base sz alloc region body :
  operator_new_alloc_region T region_type Base sz alloc region = Ok body ->
  Base = Object /\
  body = perform (Region_alloc (RegionType_to_class region_type) alloc region
                    (vsizeof T) (Addr_desc T region_type Base)).
Proof.
  unfold operator_new_alloc_region, static_assert.
  destruct (is_same_v Base Object) eqn:E; [|discriminate]. cbn [and_then].
  intro H. injection H as <-. apply is_same_v_eq in E. auto.
Qed.

Lemma new_expression_base T region_type Base array placement body :
  new_expression T region_type Base array placement = Ok body ->
  Base = Object \/ Base = Cown.
Proof.
  unfold new_expression. destruct (V region_type Base) as [[]|] eqn:E; [|discriminate].
  intros _. apply V_Ok in E. tauto.
Qed.

(** ** The optional trampolines (lines 65-80) *)

(** A non-null notified field of a compiled descriptor points to
    [gc_notified]; calling it on an object makes exactly one call, to the
    single public [notified] that [T] declares, on that object and with that
    same object as its argument. *)
Theorem notified_trampoline_forwards
  (T : Class) (region_type : RegionType.t) (Base : BaseClass)
  (d : Descriptor.t) (f : FnPtr) (o : ptr) :
  instantiate_desc T region_type Base = Ok d ->
  Descriptor.notified d = Some f ->
  exists m body,
    lookup T "notified" = [m] /\ is_public m = true /\
    callable_with [TObjectPtr] m = true /\
    f = Fn_gc_notified T region_type Base /\
    invoke f [o] = Ok body /\
    forall World (handler : call -> World -> ptr * World) (w : World),
      run handler body w =
        (tt, snd (handler (Member_call T m o [o]) w),
         [(Member_call T m o [o], fst (handler (Member_call T m o [o]) w))]).
Proof.
  intros H F. apply instantiate_desc_parts in H. destruct H as [-> [_ [_ Hn]]].
  unfold desc in F; cbn [Descriptor.notified] in F.
  destruct (has_notified T) eqn:E; [|discriminate]. injection F as <-.
  pose proof E as E'. unfold has_notified in E'. apply capability_true in E'.
  destruct E' as [m [L _]].
  unfold gc_notified in Hn. rewrite E in Hn.
  destruct (resolve_call T "notified" [TObjectPtr]) as [callee|] eqn:R;
    [|discriminate].
  destruct (@resolve_call_single _ _ _ _ _ L R) as [-> [P C]].
  exists m. eexists. repeat split; try assumption.
  - unfold invoke, gc_notified. rewrite E, R. reflexivity.
  - intros World handler w. cbn [call_member]. run_calls. reflexivity.
Qed.

(** The notified trampoline of [Logger]. *)
Lemma notified_trampoline_forwards_witness :
  instantiate_desc Logger RegionType.Trace Object = Ok (desc Logger RegionType.Trace Object) /\
  exists m body,
    lookup Logger "notified" = [m] /\ is_public m = true /\
    callable_with [TObjectPtr] m = true /\
    Fn_gc_notified Logger RegionType.Trace Object = Fn_gc_notified Logger RegionType.Trace Object /\
    invoke (Fn_gc_notified Logger RegionType.Trace Object) [7%N] = Ok body /\
    forall World (handler : call -> World -> ptr * World) (w : World),
      run handler body w =
        (tt, snd (handler (Member_call Logger m 7%N [7%N]) w),
         [(Member_call Logger m 7%N [7%N],
           fst (handler (Member_call Logger m 7%N [7%N]) w))]).
Proof.
  split; [reflexivity|].
  exact (@notified_trampoline_forwards Logger RegionType.Trace Object _ _ 7%N
           eq_refl eq_refl).
Defined.

(** A non-null finaliser field of a compiled descriptor points to [gc_final];
    calling it makes exactly one call, to the single public [finaliser] that
    [T] declares, on the object, passing the region and the worklist of
    sub-regions in that order. *)
Theorem finaliser_trampoline_forwards
  (T : Class) (region_type : RegionType.t) (Base : BaseClass)
  (d : Descriptor.t) (f : FnPtr) (o region sub_regions : ptr) :
  instantiate_desc T region_type Base = Ok d ->
  Descriptor.finaliser d = Some f ->
  exists m body,
    lookup T "finaliser" = [m] /\ is_public m = true /\
    callable_with [TObjectPtr; TObjectStackRef] m = true /\
    f = Fn_gc_final T region_type Base /\
    invoke f [o; region; sub_regions] = Ok body /\
    forall World (handler : call -> World -> ptr * World) (w : World),
      run handler body w =
        (tt, snd (handler (Member_call T m o [region; sub_regions]) w),
         [(Member_call T m o [region; sub_regions],
           fst (handler (Member_call T m o [region; sub_regions]) w))]).
Proof.
  intros H F. apply instantiate_desc_parts in H. destruct H as [-> [_ [Hf _]]].
  unfold desc in F; cbn [Descriptor.finaliser] in F.
  destruct (has_finaliser T) eqn:E; [|discriminate]. injection F as <-.
  pose proof E as E'. unfold has_finaliser in E'. apply capability_true in E'.
  destruct E' as [m [L _]].
  unfold gc_final in Hf. rewrite E in Hf.
  destruct (resolve_call T "finaliser" [TObjectPtr; TObjectStackRef]) as [callee|] eqn:R;
    [|discriminate].
  destruct (@resolve_call_single _ _ _ _ _ L R) as [-> [P C]].
  exists m. eexists. repeat split; try assumption.
  - unfold invoke, gc_final. rewrite E, R. reflexivity.
  - intros World handler w. cbn [call_member]. run_calls. reflexivity.
Qed.

(** The finaliser trampoline of [Holder]. *)
Lemma finaliser_trampoline_forwards_witness :
  instantiate_desc Holder RegionType.Trace Object = Ok (desc Holder RegionType.Trace Object) /\
  exists m body,
    lookup Holder "finaliser" = [m] /\ is_public m = true /\
    callable_with [TObjectPtr; TObjectStackRef] m = true /\
    Fn_gc_final Holder RegionType.Trace Object = Fn_gc_final Holder RegionType.Trace Object /\
    invoke (Fn_gc_final Holder RegionType.Trace Object) [7%N; 8%N; 9%N] = Ok body /\
    forall World (handler : call -> World -> ptr * World) (w : World),
      run handler body w =
        (tt, snd (handler (Member_call Holder m 7%N [8%N; 9%N]) w),
         [(Member_call Holder m 7%N [8%N; 9%N],
           fst (handler (Member_call Holder m 7%N [8%N; 9%N]) w))]).
Proof.
  split; [reflexivity|].
  exact (@finaliser_trampoline_forwards Holder RegionType.Trace Object _ _ 7%N 8%N 9%N
           eq_refl eq_refl).
Defined.

(** A non-null destructor field belongs to a type that is not trivially
    destructible and points to [gc_destructor]; calling it runs the
    destructor of [T] on the object, once, and nothing else. *)
Theorem destructor_trampoline_runs_destructor
  (T : Class) (region_type : RegionType.t) (Base : BaseClass)
  (d : Descriptor.t) (f : FnPtr) (o : ptr) :
  instantiate_desc T region_type Base = Ok d ->
  Descriptor.destructor d = Some f ->
  is_trivially_destructible T = false /\
  f = Fn_gc_destructor T region_type Base /\
  exists body,
    invoke f [o] = Ok body /\
    forall World (handler : call -> World -> ptr * World) (w : World),
      run handler body w =
        (tt, snd (handler (Destructor_call T o) w),
         [(Destructor_call T o, fst (handler (Destructor_call T o) w))]).
Proof.
  intros H F. apply instantiate_desc_parts in H. destruct H as [-> _].
  unfold desc, has_destructor in F; cbn [Descriptor.destructor] in F.
  destruct (is_trivially_destructible T); cbn [negb] in F; [discriminate|].
  injection F as <-. split; [reflexivity|]. split; [reflexivity|].
  eexists. split; [reflexivity|].
  intros World handler w. run_calls. reflexivity.
Qed.

(** The destructor trampoline of [Holder]. *)
Lemma destructor_trampoline_runs_destructor_witness :
  instantiate_desc Holder RegionType.Trace Object = Ok (desc Holder RegionType.Trace Object) /\
  is_trivially_destructible Holder = false.
Proof.
  split; [reflexivity|].
  exact (proj1 (@destructor_trampoline_runs_destructor Holder RegionType.Trace Object
                  _ _ 7%N eq_refl eq_refl)).
Defined.

(** When neither predicate detects a member, whatever [T] declares under
    the names [notified] and [finaliser] is ignored: both fields are null
    and both trampolines compile to functions that make no call. *)
Theorem undetected_members_are_ignored
  (T : Class) (region_type : RegionType.t) (Base : BaseClass) :
  has_notified T = false -> has_finaliser T = false ->
  Descriptor.notified (desc T region_type Base) = None /\
  Descriptor.finaliser (desc T region_type Base) = None /\
  (exists g, gc_notified T = Ok g /\
     forall o World (handler : call -> World -> ptr * World) (w : World),
       run handler (g o) w = (tt, w, [])) /\
  (exists g, gc_final T = Ok g /\
     forall o region sub_regions World (handler : call -> World -> ptr * World)
            (w : World),
       run handler (g o region sub_regions) w = (tt, w, [])).
Proof.
  intros Hn Hf.
  assert (gc_notified T = Ok (fun _ => Ret tt)) as Gn
    by (unfold gc_notified; now rewrite Hn).
  assert (gc_final T = Ok (fun _ _ _ => Ret tt)) as Gf
    by (unfold gc_final; now rewrite Hf).
  unfold desc; cbn [Descriptor.notified Descriptor.finaliser]. rewrite Hn, Hf.
  split; [reflexivity|]. split; [reflexivity|].
  split; eexists; (split; [eassumption|]); reflexivity.
Qed.

(** [Overloaded] and its overloads of both names. *)
Lemma undetected_members_are_ignored_witness :
  has_notified Overloaded = false /\ has_finaliser Overloaded = false /\
  Descriptor.notified (desc Overloaded RegionType.Trace Object) = None.
Proof.
  split; [reflexivity|]. split; [reflexivity|].
  exact (proj1 (@undetected_members_are_ignored Overloaded RegionType.Trace Object
                  eq_refl eq_refl)).
Defined.

(** A function takes no more arguments than it has parameters. *)
Lemma accepts_too_many params : forall args,
  List.length params < List.length args -> accepts params args = false.
Proof.
  induction params as [|p ps IH]; intros [|a rest] H; simpl in *;
    try lia; try reflexivity.
  rewrite IH by lia. apply andb_false_r.
Qed.

(** A single public [notified] that takes no argument is detected all the
    same; its trampoline, which passes the object, then fails to compile, and
    with it the descriptor and every new-expression on the type. *)
Theorem notified_mismatch_fails_to_compile
  (T : Class) (region_type : RegionType.t) (Base : BaseClass) :
  lookup T "notified" = [method "notified" []] ->
  has_notified T = true /\
  Descriptor.notified (desc T region_type Base)
    = Some (Fn_gc_notified T region_type Base) /\
  compiles (gc_notified T) = false /\
  compiles (instantiate_desc T region_type Base) = false /\
  forall array placement,
    compiles (new_expression T region_type Base array placement) = false.
Proof.
  intros L.
  assert (has_notified T = true) as E.
  { unfold has_notified. apply capability_true. eexists. split; [exact L|]. auto. }
  assert (compiles (gc_notified T) = false) as G.
  { unfold gc_notified. rewrite E. apply compiles_and_then.
    apply (@resolve_call_single_fails _ _ _ _ L). reflexivity. }
  assert (compiles (instantiate_desc T region_type Base) = false) as D.
  { destruct (compiles (instantiate_desc T region_type Base)) eqn:C; [|reflexivity].
    apply instantiate_desc_compiles in C. destruct C as [_ [_ [_ C]]]. congruence. }
  split; [exact E|]. split.
  - unfold desc; cbn [Descriptor.notified]. now rewrite E.
  - split; [exact G|]. split; [exact D|].
    intros array placement. now apply new_expression_needs_desc.
Qed.

(** [Bare] declares [notified()]. *)
Lemma notified_mismatch_fails_to_compile_witness :
  lookup Bare "notified" = [method "notified" []] /\
  has_notified Bare = true /\
  compiles (instantiate_desc Bare RegionType.Trace Object) = false.
Proof.
  split; [reflexivity|].
  pose proof (@notified_mismatch_fails_to_compile Bare RegionType.Trace Object
                eq_refl) as H.
  exact (conj (proj1 H) (proj1 (proj2 (proj2 (proj2 H))))).
Defined.

(** The same for a single public [finaliser] with fewer than the two
    parameters the trampoline passes, the region and the worklist. *)
Theorem finaliser_mismatch_fails_to_compile
  (T : Class) (region_type : RegionType.t) (Base : BaseClass) (params : list CType) :
  lookup T "finaliser" = [method "finaliser" params] ->
  List.length params < 2 ->
  has_finaliser T = true /\
  Descriptor.finaliser (desc T region_type Base)
    = Some (Fn_gc_final T region_type Base) /\
  compiles (gc_final T) = false /\
  compiles (instantiate_desc T region_type Base) = false /\
  forall array placement,
    compiles (new_expression T region_type Base array placement) = false.
Proof.
  intros L A.
  assert (has_finaliser T = true) as E.
  { unfold has_finaliser. apply capability_true. eexists. split; [exact L|]. auto. }
  assert (compiles (gc_final T) = false) as G.
  { unfold gc_final. rewrite E. apply compiles_and_then.
    apply (@resolve_call_single_fails _ _ _ _ L).
    apply accepts_too_many. exact A. }
  assert (compiles (instantiate_desc T region_type Base) = false) as D.
  { destruct (compiles (instantiate_desc T region_type Base)) eqn:C; [|reflexivity].
    apply instantiate_desc_compiles in C. destruct C as [_ [_ [C _]]]. congruence. }
  split; [exact E|]. split.
  - unfold desc; cbn [Descriptor.finaliser]. now rewrite E.
  - split; [exact G|]. split; [exact D|].
    intros array placement. now apply new_expression_needs_desc.
Qed.

(** [ShortFinaliser] declares [finaliser] with the region as its only
    parameter. *)
Lemma finaliser_mismatch_fails_to_compile_witness :
  lookup ShortFinaliser "finaliser" = [method "finaliser" [TObjectPtr]] /\
  has_finaliser ShortFinaliser = true /\
  compiles (instantiate_desc ShortFinaliser RegionType.Trace Object) = false.
Proof.
  split; [reflexivity|].
  pose proof (@finaliser_mismatch_fails_to_compile ShortFinaliser RegionType.Trace Object
                [TObjectPtr] eq_refl (le_n 2)) as H.
  exact (conj (proj1 H) (proj1 (proj2 (proj2 (proj2 H))))).
Defined.

(** ** New-expressions (lines 99-129) *)

(** A new-expression on a managed type compiles for four argument lists
    only: none, an allocator, a parent object, or an allocator followed by a
    parent object; the last two need an [Object] base.  Any other list, such
    as the parent before the allocator, is a compile error.  On a type whose
    descriptor compiles the first two always compile. *)
Theorem new_expression_forms
  (T : Class) (region_type : RegionType.t) (Base : BaseClass)
  (placement : list Arg) :
  compiles (new_expression T region_type Base false placement) = true ->
  compiles (instantiate_desc T region_type Base) = true /\
  (placement = []
   \/ (exists alloc, placement = [ArgAlloc alloc])
   \/ (exists region, placement = [ArgObject region] /\ Base = Object)
   \/ (exists alloc region, placement = [ArgAlloc alloc; ArgObject region]
                            /\ Base = Object)) /\
  new_expression T region_type Base false []
    = Ok (operator_new T region_type Base (sizeof T)) /\
  (forall alloc,
     new_expression T region_type Base false [ArgAlloc alloc]
       = Ok (operator_new_alloc T region_type Base (sizeof T) alloc)) /\
  (forall alloc region,
     compiles (new_expression T region_type Base false [ArgObject region; ArgAlloc alloc])
       = false).
Proof.
  intro H. apply compiles_Ok in H. destruct H as [body H].
  assert (compiles (instantiate_desc T region_type Base) = true) as D.
  { destruct (compiles (instantiate_desc T region_type Base)) eqn:C; [reflexivity|].
    pose proof (@new_expression_needs_desc _ _ _ false placement C) as N.
    rewrite H in N. discriminate. }
  split; [exact D|]. split.
  - destruct (@new_expression_inv _ _ _ _ _ H) as [[-> _]|[[a [-> _]]|[[r [-> E]]|[a [r [-> E]]]]]].
    + now left.
    + right. left. eauto.
    + right. right. left. apply operator_new_region_Ok in E. exists r. tauto.
    + right. right. right. apply operator_new_alloc_region_Ok in E. exists a, r. tauto.
  - apply compiles_Ok in D. destruct D as [d D].
    pose proof (@instantiate_desc_parts _ _ _ _ D) as [_ [HV _]].
    unfold new_expression. rewrite HV. cbn [and_then map arg_type].
    split; [|split].
    + change (select "operator new" [TSizeT]) with (Ok New_size).
      cbn [and_then]. unfold allocation_body. rewrite D. reflexivity.
    + intro alloc.
      change (select "operator new" [TSizeT; TAllocPtr]) with (Ok New_size_alloc).
      cbn [and_then]. unfold allocation_body. rewrite D. reflexivity.
    + intros alloc region. reflexivity.
Qed.

(** [new (alloc) Counter]. *)
Lemma new_expression_forms_witness :
  compiles (new_expression Counter RegionType.Trace Object false [ArgAlloc 3%N]) = true /\
  compiles (new_expression Counter RegionType.Trace Object false [ArgObject 5%N; ArgAlloc 3%N])
    = false.
Proof.
  split; [reflexivity|].
  exact (proj2 (proj2 (proj2 (proj2
           (@new_expression_forms Counter RegionType.Trace Object [ArgAlloc 3%N] eq_refl))))
           3%N 5%N).
Defined.

Lemma stamped_log T region_type Base body World
  (handler : call -> World -> ptr * World) w placement :
  new_expression T region_type Base false placement = Ok body ->
  Forall (fun e => stamped T region_type Base (fst e)) (log_of handler body w).
Proof.
  intro H. unfold log_of.
  destruct (@new_expression_inv _ _ _ _ _ H) as [[_ ->]|[[a [_ ->]]|[[r [_ E]]|[a [r [_ E]]]]]].
  - unfold operator_new, RegionClass, addr_desc, desc; cbn [Descriptor.size].
    destruct (is_same_v Base Object); run_calls;
      repeat constructor; reflexivity.
  - unfold operator_new_alloc, RegionClass, addr_desc, desc; cbn [Descriptor.size].
    destruct (is_same_v Base Object); run_calls;
      repeat constructor; reflexivity.
  - apply operator_new_region_Ok in E. destruct E as [_ ->]. run_calls.
    repeat constructor; reflexivity.
  - apply operator_new_alloc_region_Ok in E. destruct E as [_ ->]. run_calls.
    repeat constructor; reflexivity.
Qed.

(** Every call made by the form of [operator new] that a new-expression
    on [V<T, region_type, Base>] selects carries that instantiation's own
    data: the size is [vsizeof<T>], never
    the [size_t] the expression passes, the descriptor is the address of that
    instantiation's [desc], and a region call goes to the class of
    [region_type]. *)
Theorem new_expression_stamps_descriptor
  (T : Class) (region_type : RegionType.t) (Base : BaseClass)
  (placement : list Arg) (body : prog ptr)
  (World : Type) (handler : call -> World -> ptr * World) (w : World) :
  new_expression T region_type Base false placement = Ok body ->
  Forall (fun e => stamped T region_type Base (fst e)) (log_of handler body w) /\
  (forall c r size,
     In (c, r) (log_of handler body w) ->
     (exists a, c = Alloc_alloc a size)
     \/ (exists R a d, c = Region_create R a size d)
     \/ (exists R a o d, c = Region_alloc R a o size d) ->
     size = vsizeof T) /\
  (forall c r,
     In (c, r) (log_of handler body w) ->
     forall d,
       (exists p, c = Object_register_object p d)
       \/ (exists R a size, c = Region_create R a size d)
       \/ (exists R a o size, c = Region_alloc R a o size d) ->
       d = Addr_desc T region_type Base).
Proof.
  intro H. pose proof (@stamped_log _ _ _ _ _ handler w _ H) as S.
  split; [exact S|]. rewrite Forall_forall in S. split.
  - intros c r size Hin Hc. specialize (S _ Hin). cbn [fst] in S.
    destruct Hc as [[a ->]|[[R [a [d ->]]]|[R [a [o [d ->]]]]]]; simpl in S; tauto.
  - intros c r Hin d Hc. specialize (S _ Hin). cbn [fst] in S.
    destruct Hc as [[p ->]|[[R [a [size ->]]]|[R [a [o [size ->]]]]]]; simpl in S; tauto.
Qed.

(** [new Actor] on the reference runtime. *)
Lemma new_expression_stamps_descriptor_witness :
  new_expression Actor RegionType.Cown Cown false []
    = Ok (operator_new Actor RegionType.Cown Cown 64%N) /\
  Forall (fun e => stamped Actor RegionType.Cown Cown (fst e))
    (log_of bump (operator_new Actor RegionType.Cown Cown 64%N) 100%N).
Proof.
  split; [reflexivity|].
  exact (proj1 (@new_expression_stamps_descriptor Actor RegionType.Cown Cown [] _
                  _ bump 100%N eq_refl)).
Defined.

Ltac last_call :=
  first [ eexists [], _; split; reflexivity
        | eexists [_], _; split; reflexivity
        | eexists [_; _], _; split; reflexivity ].

(** The two categories never mix.  The form of [operator new] that a
    new-expression selects makes, on an [Object] base, exactly one region
    call and no allocator or registration call; on a [Cown] base it makes no
    region call, takes storage from the allocator once and registers it
    once.  In both cases the pointer that form returns is the answer to its
    last call, which is the region call or the registration. *)
Theorem new_expression_keeps_categories_apart
  (T : Class) (region_type : RegionType.t) (Base : BaseClass)
  (placement : list Arg) (body : prog ptr)
  (World : Type) (handler : call -> World -> ptr * World) (w : World) :
  new_expression T region_type Base false placement = Ok body ->
  let log := log_of handler body w in
  (Base = Object ->
     List.length (filter (fun e => region_call (fst e)) log) = 1 /\
     existsb (fun e => cown_call (fst e)) log = false) /\
  (Base = Cown ->
     existsb (fun e => region_call (fst e)) log = false /\
     List.length (filter (fun e => cown_call (fst e)) log) = 2 /\
     (placement = [] \/ exists alloc, placement = [ArgAlloc alloc])) /\
  exists before c,
    log = before ++ [(c, fst (fst (run handler body w)))] /\
    (if is_same_v Base Object then region_call c
     else match c with Object_register_object _ _ => true | _ => false end) = true.
Proof.
  intro H. cbv zeta. unfold log_of.
  pose proof (@new_expression_base _ _ _ _ _ _ H) as HB.
  destruct (@new_expression_inv _ _ _ _ _ H) as [[P ->]|[[a [P ->]]|[[r [P E]]|[a [r [P E]]]]]].
  - unfold operator_new.
    destruct HB as [-> | ->]; simpl is_same_v; cbv iota; run_calls;
      (split; [intro; try discriminate; split; reflexivity|]);
      (split; [intro; try discriminate; repeat split; auto|]);
      last_call.
  - unfold operator_new_alloc.
    destruct HB as [-> | ->]; simpl is_same_v; cbv iota; run_calls;
      (split; [intro; try discriminate; split; reflexivity|]);
      (split; [intro; try discriminate; repeat split; eauto|]);
      last_call.
  - apply operator_new_region_Ok in E. destruct E as [-> ->].
    simpl is_same_v; cbv iota; run_calls.
    split; [intro; split; reflexivity|]. split; [discriminate|].
    eexists [_], _. split; reflexivity.
  - apply operator_new_alloc_region_Ok in E. destruct E as [-> ->].
    simpl is_same_v; cbv iota; run_calls.
    split; [intro; split; reflexivity|]. split; [discriminate|].
    eexists [], _. split; reflexivity.
Qed.

(** [new (alloc) Actor] on the reference runtime. *)
Lemma new_expression_keeps_categories_apart_witness :
  new_expression Actor RegionType.Cown Cown false [ArgAlloc 3%N]
    = Ok (operator_new_alloc Actor RegionType.Cown Cown 64%N 3%N) /\
  existsb (fun e => region_call (fst e))
    (log_of bump (operator_new_alloc Actor RegionType.Cown Cown 64%N 3%N) 100%N) = false.
Proof.
  split; [reflexivity|].
  exact (proj1 (proj1 (proj2
           (@new_expression_keeps_categories_apart Actor RegionType.Cown Cown
              [ArgAlloc 3%N] _ _ bump 100%N eq_refl)) eq_refl)).
Defined.

(** ** Deallocation functions matching the allocation functions *)

(** Every form of [operator new] that [V] declares has a form of
    [operator delete] with the same placement parameters; overload
    resolution on the pointer followed by those parameters selects it without
    ambiguity, and it is not deleted.  So whichever form constructed an
    object, a constructor that throws finds its deallocation function. *)
Theorem placement_delete_matches_new (f : AllocationFunction) :
  fn_name f = "operator new" ->
  fn_deleted f = false /\
  exists g,
    select "operator delete" (TVoidPtr :: placement_params f) = Ok g /\
    fn_name g = "operator delete" /\
    placement_params g = placement_params f /\
    fn_deleted g = false.
Proof.
  destruct f; intro H; try discriminate H;
    (split; [reflexivity | eexists; split; [reflexivity | repeat split]]).
Qed.

(** The form taking an allocator and a parent object. *)
Lemma placement_delete_matches_new_witness :
  fn_name New_size_alloc_region = "operator new" /\
  exists g,
    select "operator delete" [TVoidPtr; TAllocPtr; TObjectPtr] = Ok g /\
    fn_name g = "operator delete" /\
    placement_params g = [TAllocPtr; TObjectPtr] /\
    fn_deleted g = false.
Proof.
  split; [reflexivity|].
  exact (proj2 (@placement_delete_matches_new New_size_alloc_region eq_refl)).
Defined.

(** ** A [trace] declared by [T] (lines 62 and 89) *)


